(** * Movie Night Decider: room store, matching engine and session registry

    A shallow embedding of [backend/database.py] (class [Database]) and of the
    connection manager and HTTP endpoints of [backend/main.py].

    The four SQLite tables are lists of rows in insertion (rowid) order; the
    two AUTOINCREMENT counters of [sqlite_sequence] are explicit.  Python's
    [random.choices] reads from an explicit stream of raw random numbers and
    [datetime.now().isoformat()] is an argument [now]. *)

From stdpp Require Import base decidable numbers list strings gmap.
From Stdlib Require Import ZArith Ascii.

Local Open Scope string_scope.
Local Open Scope list_scope.
Local Open Scope Z_scope.

(** ** Rows of the four tables (schema of [Database.create_tables]) *)

Module Room.
Record t := mk {
  room_code : string;   (* TEXT PRIMARY KEY *)
  created_at : string;  (* TEXT NOT NULL *)
  status : string       (* TEXT DEFAULT 'active' *)
}.
End Room.

Module Participant.
Record t := mk {
  user_id : string;     (* TEXT PRIMARY KEY *)
  username : string;
  room_code : string;
  joined_at : string
}.
End Participant.

(** A movie dictionary as produced by [TMDBService._format_movie]: the key
    ["id"] and, for the keys that no query looks at, the title.  The column
    [movie_data] holds
    [json.dumps(movie)] and every reader applies [json.loads] to it, so the
    embedding keeps the dictionary itself. *)
Module MovieDict.
Record t := mk {
  id : Z;
  title : string
}.
End MovieDict.

Module Movie.
Record t := mk {
  id : Z;               (* INTEGER PRIMARY KEY AUTOINCREMENT *)
  room_code : string;
  movie_id : Z;
  movie_data : MovieDict.t
}.
End Movie.

Module Vote.
Record t := mk {
  id : Z;               (* INTEGER PRIMARY KEY AUTOINCREMENT *)
  user_id : string;
  movie_id : Z;
  room_code : string;
  vote : Z;             (* 1 for YES, 0 for NO *)
  voted_at : string
}.
End Vote.

#[global] Instance Room_eq_dec : EqDecision Room.t.
Proof. solve_decision. Defined.
#[global] Instance Participant_eq_dec : EqDecision Participant.t.
Proof. solve_decision. Defined.
#[global] Instance MovieDict_eq_dec : EqDecision MovieDict.t.
Proof. solve_decision. Defined.
#[global] Instance Movie_eq_dec : EqDecision Movie.t.
Proof. solve_decision. Defined.
#[global] Instance Vote_eq_dec : EqDecision Vote.t.
Proof. solve_decision. Defined.

(** ** The database *)

Record Database := mkDatabase {
  rooms : list Room.t;
  participants : list Participant.t;
  movies : list Movie.t;
  votes : list Vote.t;
  movies_seq : Z;         (* sqlite_sequence entry of table movies *)
  votes_seq : Z           (* sqlite_sequence entry of table votes *)
}.

(** The state after [create_tables] on a new file. *)
Definition empty_db : Database := mkDatabase [] [] [] [] 0 0.

(** ** Results of calls that may raise *)

Inductive exn :=
  | IntegrityError (constraint : string)   (* sqlite3.IntegrityError *)
  | SendError (detail : string)            (* any Exception of send_json *)
  | ValueError (detail : string)           (* list.remove(x): x not in list *)
  | HTTPException (status_code : nat) (detail : string).

Inductive result (A : Type) :=
  | Ok (a : A)
  | Raise (e : exn).
Arguments Ok {A} a.
Arguments Raise {A} e.

(** ** random.choices

    [random.choices(population, k=k)] is
    [[population[floor(random() * n)] for i in range(k)]]: every index below
    [n] can come out.  The embedding reads raw numbers from a stream [rng]
    starting at [pos] and reduces each modulo [n]. *)

Definition rng := nat → nat.

Definition ascii_uppercase : list ascii :=
  String.list_ascii_of_string "ABCDEFGHIJKLMNOPQRSTUVWXYZ".
Definition ascii_lowercase : list ascii :=
  String.list_ascii_of_string "abcdefghijklmnopqrstuvwxyz".
Definition digits : list ascii :=
  String.list_ascii_of_string "0123456789".

Definition choices (population : list ascii) (k : nat) (r : rng) (pos : nat)
  : list ascii :=
  (λ i, nth (r (pos + i)%nat mod length population)%nat population "000"%char)
    <$> seq 0 k.

(** [''.join(...)] *)
Definition join (cs : list ascii) : string := String.string_of_list_ascii cs.

(** ** Room store *)

Definition room_exists (db : Database) (code : string) : bool :=
  bool_decide (Exists (λ r, Room.room_code r = code) (rooms db)).

(** [generate_room_code]: draw a code, look it up, and on a hit call itself
    again.  The recursion of the source has no counter; [fuel] is the number
    of nested calls still allowed (CPython stops a deeper recursion with
    RecursionError), and [None] says that they were used up before a draw
    missed every known room. *)
Fixpoint generate_room_code (fuel : nat) (db : Database) (r : rng) (pos : nat)
  : option string :=
  match fuel with
  | O => None
  | S fuel' =>
      let code := join (choices (ascii_uppercase ++ digits) 6 r pos) in
      if room_exists db code
      then generate_room_code fuel' db r (pos + 6)%nat
      else Some code
  end.

Definition insert_room (db : Database) (code now : string) : Database :=
  mkDatabase (rooms db ++ [Room.mk code now "active"])
             (participants db) (movies db) (votes db)
             (movies_seq db) (votes_seq db).

(** [create_room] *)
Definition create_room (fuel : nat) (db : Database) (r : rng) (pos : nat)
    (now : string) : option (string * Database) :=
  match generate_room_code fuel db r pos with
  | None => None
  | Some room_code => Some (room_code, insert_room db room_code now)
  end.

Definition user_id_taken (db : Database) (uid : string) : bool :=
  bool_decide (Exists (λ p, Participant.user_id p = uid) (participants db)).

(** [join_room]: [None] for an unknown room; otherwise sixteen random
    characters become the user id and the row is inserted.  [user_id] is the
    primary key of [participants], so the INSERT raises
    [sqlite3.IntegrityError] when the drawn id is already there; nothing has
    been committed at that point. *)
Definition join_room (db : Database) (room_code username : string)
    (r : rng) (pos : nat) (now : string) : result (option string) * Database :=
  if negb (room_exists db room_code) then (Ok None, db)
  else
    let user_id := join (choices (ascii_lowercase ++ digits) 16 r pos) in
    if user_id_taken db user_id
    then (Raise (IntegrityError "UNIQUE constraint failed: participants.user_id"), db)
    else
      (Ok (Some user_id),
       mkDatabase (rooms db)
                  (participants db ++ [Participant.mk user_id username room_code now])
                  (movies db) (votes db) (movies_seq db) (votes_seq db)).

(** [get_participants]: the pairs (user_id, username) of the room. *)
Definition get_participants (db : Database) (room_code : string)
  : list (string * string) :=
  (λ p, (Participant.user_id p, Participant.username p))
    <$> filter (λ p, Participant.room_code p = room_code) (participants db).

(** [remove_participant]: both DELETE statements, votes first. *)
Definition remove_participant (db : Database) (user_id room_code : string)
  : Database :=
  mkDatabase (rooms db)
    (filter (λ p, ¬ (Participant.user_id p = user_id
                     ∧ Participant.room_code p = room_code)) (participants db))
    (movies db)
    (filter (λ v, ¬ (Vote.user_id v = user_id
                     ∧ Vote.room_code v = room_code)) (votes db))
    (movies_seq db) (votes_seq db).

(** [add_movies_to_room]: one INSERT per dictionary, in order. *)
Definition insert_movie (db : Database) (room_code : string) (movie : MovieDict.t)
  : Database :=
  mkDatabase (rooms db) (participants db)
    (movies db ++ [Movie.mk (movies_seq db + 1) room_code (MovieDict.id movie) movie])
    (votes db) (movies_seq db + 1) (votes_seq db).

Definition add_movies_to_room (db : Database) (room_code : string)
    (ms : list MovieDict.t) : Database :=
  foldl (λ d movie, insert_movie d room_code movie) db ms.

(** [get_movies_for_room] *)
Definition get_movies_for_room (db : Database) (room_code : string)
  : list MovieDict.t :=
  Movie.movie_data <$> filter (λ m, Movie.room_code m = room_code) (movies db).

(** [save_vote]: SELECT the id of a row of this user, movie and room;
    [fetchone] gives the first one.  UPDATE by id when there is one, INSERT
    otherwise. *)
Definition same_vote_key (user_id : string) (movie_id : Z) (room_code : string)
    (v : Vote.t) : Prop :=
  Vote.user_id v = user_id ∧ Vote.movie_id v = movie_id
  ∧ Vote.room_code v = room_code.

#[global] Instance same_vote_key_dec u m r v : Decision (same_vote_key u m r v).
Proof. unfold same_vote_key. apply _. Defined.

Definition update_vote (vote : Z) (now : string) (id : Z) (v : Vote.t) : Vote.t :=
  if decide (Vote.id v = id)
  then Vote.mk (Vote.id v) (Vote.user_id v) (Vote.movie_id v) (Vote.room_code v)
               vote now
  else v.

Definition save_vote (db : Database) (user_id : string) (movie_id : Z)
    (room_code : string) (vote : Z) (now : string) : Database :=
  match filter (same_vote_key user_id movie_id room_code) (votes db) with
  | existing :: _ =>
      mkDatabase (rooms db) (participants db) (movies db)
        (update_vote vote now (Vote.id existing) <$> votes db)
        (movies_seq db) (votes_seq db)
  | [] =>
      mkDatabase (rooms db) (participants db) (movies db)
        (votes db ++ [Vote.mk (votes_seq db + 1) user_id movie_id room_code vote now])
        (movies_seq db) (votes_seq db + 1)
  end.

(** ** Matching engine *)

(** [SELECT COUNT( * ) FROM participants WHERE room_code = ?] *)
Definition participant_count (db : Database) (room_code : string) : nat :=
  length (filter (λ p, Participant.room_code p = room_code) (participants db)).

(** The subquery of [get_matched_movies]:
    [SELECT v.movie_id FROM votes v WHERE v.room_code = ? AND v.vote = 1
     GROUP BY v.movie_id HAVING COUNT(DISTINCT v.user_id) = ?]. *)
Definition yes_votes (db : Database) (room_code : string) : list Vote.t :=
  filter (λ v, Vote.room_code v = room_code ∧ Vote.vote v = 1) (votes db).

(** GROUP BY makes one group for each movie_id that occurs in the rows. *)
Definition vote_group_keys (rows : list Vote.t) : list Z :=
  remove_dups (Vote.movie_id <$> rows).

Definition vote_group (rows : list Vote.t) (movie_id : Z) : list Vote.t :=
  filter (λ v, Vote.movie_id v = movie_id) rows.

(** COUNT(DISTINCT v.user_id) over a group *)
Definition count_distinct_user_id (group : list Vote.t) : nat :=
  length (remove_dups (Vote.user_id <$> group)).

Definition unanimous_movie_ids (db : Database) (room_code : string) (n : nat)
  : list Z :=
  let rows := yes_votes db room_code in
  filter (λ k, count_distinct_user_id (vote_group rows k) = n)
         (vote_group_keys rows).

(** The rows the outer SELECT of [get_matched_movies] fetches. *)
Definition matched_rows (db : Database) (room_code : string) : list Movie.t :=
  let participant_count := participant_count db room_code in
  filter (λ m, Movie.room_code m = room_code
               ∧ Movie.movie_id m ∈ unanimous_movie_ids db room_code participant_count)
         (movies db).

(** [get_matched_movies] *)
Definition get_matched_movies (db : Database) (room_code : string)
  : list MovieDict.t :=
  Movie.movie_data <$> matched_rows db room_code.

(** The query of [count_matched_movies].  [movies m LEFT JOIN votes v ON
    m.movie_id = v.movie_id AND m.room_code = v.room_code AND v.vote = 1]
    pairs each movie row with every vote row that meets the ON condition, and
    with NULL when there is none. *)
Definition left_join_votes (ms : list Movie.t) (vs : list Vote.t)
  : list (Movie.t * option Vote.t) :=
  m ← ms;
  match filter (λ v, Movie.movie_id m = Vote.movie_id v
                     ∧ Movie.room_code m = Vote.room_code v
                     ∧ Vote.vote v = 1) vs with
  | [] => [(m, None)]
  | matching => (λ v, (m, Some v)) <$> matching
  end.

(** COUNT(v.id) over a group of joined rows: the rows whose v.id is not NULL *)
Definition count_v_id (group : list (Movie.t * option Vote.t)) : nat :=
  length (filter (λ row, is_Some (row.2)) group).

Definition count_matched_movies (db : Database) (room_code : string) : nat :=
  let participant_count := participant_count db room_code in
  let joined :=
    filter (λ row, Movie.room_code (row.1) = room_code)
           (left_join_votes (movies db) (votes db)) in
  let keys := remove_dups ((λ row, Movie.movie_id (row.1)) <$> joined) in
  let group k := filter (λ row, Movie.movie_id (row.1) = k) joined in
  length (filter (λ k, count_v_id (group k) = participant_count) keys).

Module Progress.
Record t := mk {
  total_movies : nat;
  movies_with_all_votes : nat;
  participants : nat
}.
End Progress.

(** [get_vote_progress] *)
Definition get_vote_progress (db : Database) (room_code : string) : Progress.t :=
  let participant_count := participant_count db room_code in
  let total_movies :=
    length (filter (λ m, Movie.room_code m = room_code) (movies db)) in
  let matched_count := count_matched_movies db room_code in
  Progress.mk total_movies matched_count participant_count.

(** ** Server state and the monad of the endpoints

    [main.py] keeps two global objects, [db] and [manager]; the sockets are
    the outside world.  A socket is known by its identity; [stale] holds the
    sockets on which [send_json] raises and [delivered] records, in order,
    what the others were sent. *)

Abbreviation WebSocket := nat (only parsing).

Inductive message :=
  | Connected (text : string) (participants : list (string * string))
      (progress : Progress.t)
  | UserJoined (username : string) (participants : list (string * string))
  | VoteUpdate (movie_id : Z) (progress : Progress.t)
  | UserLeft (user_id : string) (participants : list (string * string))
  | Echo (text : string).

Record Server := mkServer {
  db : Database;
  active_connections : gmap string (list WebSocket);
  stale : gset WebSocket;
  delivered : list (WebSocket * message)
}.

Definition M (A : Type) : Type := Server → result A * Server.

Definition ret {A} (a : A) : M A := λ s, (Ok a, s).

Definition raise {A} (e : exn) : M A := λ s, (Raise e, s).

Definition bind {A B} (c : M A) (k : A → M B) : M B :=
  λ s, match c s with
       | (Ok a, s') => k a s'
       | (Raise e, s') => (Raise e, s')
       end.

(** [try: body except Exception as e: handler(e)] *)
Definition try_except {A} (body : M A) (handler : exn → M A) : M A :=
  λ s, match body s with
       | (Ok a, s') => (Ok a, s')
       | (Raise e, s') => handler e s'
       end.

Notation "'do' x <- c ; k" := (bind c (λ x, k))
  (at level 20, x name, c at level 100, k at level 200, only parsing).
Notation "c ;; k" := (bind c (λ _, k))
  (at level 100, k at level 200, right associativity, only parsing).

(** [for x in l: body(x)] *)
Fixpoint for_each {A} (l : list A) (body : A → M unit) : M unit :=
  match l with
  | [] => ret tt
  | x :: l' => body x ;; for_each l' body
  end.

Definition get_db : M Database := λ s, (Ok (db s), s).

Definition set_db (d : Database) : M unit :=
  λ s, (Ok tt, mkServer d (active_connections s) (stale s) (delivered s)).

Definition set_connections (ac : gmap string (list WebSocket)) : M unit :=
  λ s, (Ok tt, mkServer (db s) ac (stale s) (delivered s)).

(** [await websocket.send_json(message)] *)
Definition send_json (websocket : WebSocket) (msg : message) : M unit :=
  λ s, if decide (websocket ∈ stale s)
       then (Raise (SendError "connection closed"), s)
       else (Ok tt, mkServer (db s) (active_connections s) (stale s)
                             (delivered s ++ [(websocket, msg)])).

(** ** Session registry: class [ConnectionManager] *)

(** [connect] *)
Definition connect (websocket : WebSocket) (room_code : string) : M unit :=
  λ s, let ac := active_connections s in
       let ac := match ac !! room_code with
                 | None => <[room_code := []]> ac
                 | Some _ => ac
                 end in
       set_connections (<[room_code := ac !!! room_code ++ [websocket]]> ac) s.

(** [list.remove(x)]: drop the first occurrence, ValueError when absent *)
Fixpoint list_remove (x : WebSocket) (l : list WebSocket)
  : option (list WebSocket) :=
  match l with
  | [] => None
  | y :: l' => if decide (y = x) then Some l' else cons y <$> list_remove x l'
  end.

(** [disconnect] *)
Definition disconnect (websocket : WebSocket) (room_code : string) : M unit :=
  λ s, match active_connections s !! room_code with
       | Some conns =>
           match list_remove websocket conns with
           | None => (Raise (ValueError "list.remove(x): x not in list"), s)
           | Some [] => set_connections (delete room_code (active_connections s)) s
           | Some conns' =>
               set_connections (<[room_code := conns']> (active_connections s)) s
           end
       | None => (Ok tt, s)
       end.

(** [broadcast_to_room]: the except clause only prints. *)
Definition broadcast_to_room (room_code : string) (msg : message) : M unit :=
  λ s, match active_connections s !! room_code with
       | Some conns =>
           for_each conns
             (λ connection,
                try_except (send_json connection msg) (λ e, ret tt)) s
       | None => (Ok tt, s)
       end.

(** ** Request and response models *)

Module JoinRoomRequest.
Record t := mk { room_code : string; username : string }.
End JoinRoomRequest.

Module JoinRoomResponse.
Record t := mk {
  user_id : string; room_code : string; username : string; message : string
}.
End JoinRoomResponse.

Module VoteRequest.
Record t := mk {
  user_id : string; movie_id : Z; room_code : string; vote : Z
}.
End VoteRequest.

Module VoteResponse.
Record t := mk { message : string; progress : Progress.t }.
End VoteResponse.

(** ** Endpoints *)

(** [except HTTPException: raise / except Exception as e: raise
    HTTPException(500, ...)] *)
Definition reraise_as_500 {A} (prefix : string) (e : exn) : M A :=
  match e with
  | HTTPException _ _ => raise e
  | _ => raise (HTTPException 500 prefix)
  end.

(** [db.join_room(...)] on the global [db] *)
Definition db_join_room (room_code username : string) (r : rng) (pos : nat)
    (now : string) : M (option string) :=
  λ s, match join_room (db s) room_code username r pos now with
       | (Ok user_id, d) =>
           (Ok user_id, mkServer d (active_connections s) (stale s) (delivered s))
       | (Raise e, _) => (Raise e, s)
       end.

(** POST /api/rooms/join *)
Definition join_room_endpoint (request : JoinRoomRequest.t) (r : rng) (pos : nat)
    (now : string) : M JoinRoomResponse.t :=
  let room_code := JoinRoomRequest.room_code request in
  let username := JoinRoomRequest.username request in
  try_except
    (do user_id <- db_join_room room_code username r pos now;
     match user_id with
     | Some user_id =>
         if decide (user_id = "")
         then raise (HTTPException 404 "Room not found")
         else
           do d <- get_db;
           let all_participants := get_participants d room_code in
           broadcast_to_room room_code (UserJoined username all_participants) ;;
           ret (JoinRoomResponse.mk user_id room_code username "Joined successfully")
     | None => raise (HTTPException 404 "Room not found")
     end)
    (reraise_as_500 "Error joining room").


(** * Notions used in the statements *)

(** The state after every socket of [conns] that is not stale got [msg]. *)
Definition after_broadcast (msg : message) (conns : list WebSocket) (s : Server)
  : Server :=
  mkServer (db s) (active_connections s) (stale s)
    (delivered s ++ ((λ ws, (ws, msg)) <$> filter (λ ws, ws ∉ stale s) conns)).

(** ** Invariants of the votes table *)

(** At most one row for each (user, movie, room). *)
Definition votes_unique (d : Database) : Prop :=
  ∀ u m r, (length (filter (same_vote_key u m r) (votes d)) ≤ 1)%nat.

(** The ids of the vote rows are distinct and none is above the counter. *)
Definition vote_ids_wf (d : Database) : Prop :=
  NoDup (Vote.id <$> votes d) ∧ Forall (λ v, Vote.id v ≤ votes_seq d) (votes d).

(** ** States the server can be in

    The calls that write to the database, and the states that runs of them
    lead to from the empty database. *)

Inductive op :=
  | CreateRoom (fuel : nat) (r : rng) (pos : nat) (now : string)
  | JoinRoom (room_code username : string) (r : rng) (pos : nat) (now : string)
  | RemoveParticipant (user_id room_code : string)
  | AddMoviesToRoom (room_code : string) (ms : list MovieDict.t)
  | SaveVote (user_id : string) (movie_id : Z) (room_code : string) (vote : Z)
      (now : string).

Definition apply_op (d : Database) (o : op) : Database :=
  match o with
  | CreateRoom fuel r pos now =>
      match create_room fuel d r pos now with
      | Some (_, d') => d'
      | None => d
      end
  | JoinRoom room_code username r pos now =>
      (join_room d room_code username r pos now).2
  | RemoveParticipant user_id room_code => remove_participant d user_id room_code
  | AddMoviesToRoom room_code ms => add_movies_to_room d room_code ms
  | SaveVote user_id movie_id room_code vote now =>
      save_vote d user_id movie_id room_code vote now
  end.

Inductive reachable : Database → Prop :=
  | reachable_empty : reachable empty_db
  | reachable_step d o : reachable d → reachable (apply_op d o).


(** The distinct users with an approval row (vote 1) for a movie id in a
    room; they need not be participants. *)
Definition approvers (d : Database) (room_code : string) (movie_id : Z)
  : list string :=
  remove_dups
    (Vote.user_id <$>
     filter (λ v, Vote.room_code v = room_code ∧ Vote.movie_id v = movie_id
                  ∧ Vote.vote v = 1) (votes d)).


(** ** A session: room AB12CD, movies 101 and 102, two participants *)

(** Raw random numbers that make [create_room] draw AB12CD and the two calls
    of [join_room] draw sixteen times a and sixteen times b. *)
Definition rng_demo : rng := λ i, nth i [0; 1; 27; 28; 2; 3]%nat (i / 22)%nat.

Definition p1 : string := "aaaaaaaaaaaaaaaa".
Definition p2 : string := "bbbbbbbbbbbbbbbb".

Definition movie_102 : Movie.t := Movie.mk 2 "AB12CD" 102 (MovieDict.mk 102 "B").

(** The room with its two movies and nobody in it. *)
Definition db_room : Database :=
  foldl apply_op empty_db
    [CreateRoom 1 rng_demo 0 "t0";
     AddMoviesToRoom "AB12CD" [MovieDict.mk 101 "A"; MovieDict.mk 102 "B"]].

(** One participant has joined. *)
Definition db_one : Database :=
  apply_op db_room (JoinRoom "AB12CD" "Ann" rng_demo 6 "t1").

(** Both have joined; both approve 101 and only the first approves 102. *)
Definition db_two : Database :=
  foldl apply_op db_one
    [JoinRoom "AB12CD" "Bob" rng_demo 22 "t2";
     SaveVote p1 101 "AB12CD" 1 "t3";
     SaveVote p2 101 "AB12CD" 1 "t4";
     SaveVote p1 102 "AB12CD" 1 "t5"].

(** Nobody has joined, and a user id that never joined approves 101. *)
Definition db_stale : Database :=
  apply_op db_room (SaveVote "ghost" 101 "AB12CD" 1 "t1").


(** Three sockets in the room, the second one stale. *)
Definition srv_demo : Server :=
  mkServer db_room {["AB12CD" := [1; 2; 3]%nat]} {[2%nat]} [].

(** ** The claims as the specification words them, where the code differs *)



(** C8 as stated: a socket on which delivery fails is no longer registered
    for the room after the broadcast. *)
Definition evicts_failed (s : Server) (room_code : string) (msg : message)
  : Prop :=
  ∀ ws conns,
    ws ∈ stale s →
    active_connections (broadcast_to_room room_code msg s).2 !! room_code
    = Some conns →
    ws ∉ conns.





(** ** Invariants of the rooms, participants and movies tables *)

(** A string of [n] characters, all from [population]. *)
Definition drawn_from (population : list ascii) (n : nat) (code : string)
  : Prop :=
  String.length code = n
  ∧ Forall (λ c, c ∈ population) (String.list_ascii_of_string code).

(** No two rooms share a code; every code is six characters from A-Z and 0-9
    and every status is active. *)
Definition rooms_wf (d : Database) : Prop :=
  NoDup (Room.room_code <$> rooms d)
  ∧ Forall (λ room, drawn_from (ascii_uppercase ++ digits) 6 (Room.room_code room)
                    ∧ Room.status room = "active") (rooms d).

(** No two participants share a user id; every id is sixteen characters from
    a-z and 0-9 and every participant's room is in the rooms table. *)
Definition participants_wf (d : Database) : Prop :=
  NoDup (Participant.user_id <$> participants d)
  ∧ Forall (λ p, drawn_from (ascii_lowercase ++ digits) 16 (Participant.user_id p)
                 ∧ room_exists d (Participant.room_code p) = true)
           (participants d).

(** No two movie rows share a row id, none is above the counter, and the
    column [movie_id] is the id inside the stored dictionary. *)
Definition movies_wf (d : Database) : Prop :=
  NoDup (Movie.id <$> movies d)
  ∧ Forall (λ m, Movie.id m ≤ movies_seq d
                 ∧ Movie.movie_id m = MovieDict.id (Movie.movie_data m))
           (movies d).

(** The rows that [left_join_votes] makes of one movie row. *)
Definition joined_rows (m : Movie.t) (vs : list Vote.t)
  : list (Movie.t * option Vote.t) :=
  match filter (λ v, Movie.movie_id m = Vote.movie_id v
                     ∧ Movie.room_code m = Vote.room_code v
                     ∧ Vote.vote v = 1) vs with
  | [] => [(m, None)]
  | matching => (λ v, (m, Some v)) <$> matching
  end.

(** ** Invariant of the session registry *)

(** No room is registered with an empty list of sockets. *)
Definition no_empty_rooms (ac : gmap string (list nat)) : Prop :=
  ∀ room_code, ac !! room_code ≠ Some [].

(** ** The other endpoints of [main.py] that write *)

Module CreateRoomResponse.
Record t := mk { room_code : string; message : string }.
End CreateRoomResponse.


(** The websocket endpoint /ws/{room_code}/{user_id}, for a client that
    sends the texts [received] and then goes away, so that [receive_text]
    raises WebSocketDisconnect and the except clause runs.  An exception of
    [send_json] is none that this clause catches: it ends the run. *)
Definition websocket_endpoint (websocket : nat) (room_code user_id : string)
    (received : list string) : M unit :=
  connect websocket room_code ;;
  (do d <- get_db;
   send_json websocket
     (Connected (String.append "Connected to room " room_code)
                (get_participants d room_code) (get_vote_progress d room_code)) ;;
   for_each received
     (λ data, send_json websocket
                (Echo (String.append "Server received: " data)))) ;;
  disconnect websocket room_code ;;
  (do d <- get_db; set_db (remove_participant d user_id room_code)) ;;
  do d <- get_db;
  broadcast_to_room room_code (UserLeft user_id (get_participants d room_code)).

(** * Properties *)

(** ** Leaving a room *)

Section remove_participant.
Variables (d : Database) (user_id room_code : string).

Lemma remove_participant_votes v :
  v ∈ votes (remove_participant d user_id room_code) ↔
  v ∈ votes d ∧ ¬ (Vote.user_id v = user_id ∧ Vote.room_code v = room_code).
Proof. cbn. rewrite list_elem_of_filter. tauto. Qed.

End remove_participant.



(** ** Broadcast *)

Section broadcast.
Variable msg : message.

Lemma for_each_send conns : ∀ s,
  for_each conns (λ connection,
    try_except (send_json connection msg) (λ e, ret tt)) s
  = (Ok tt, after_broadcast msg conns s).
Proof.
  induction conns as [|c conns IH]; intros s.
  - destruct s; cbn. unfold after_broadcast, ret; cbn.
    by rewrite app_nil_r.
  - cbn [for_each]. unfold bind, try_except, send_json at 1.
    destruct (decide (c ∈ stale s)) as [Hc|Hc].
    + unfold ret at 1. rewrite IH. unfold after_broadcast.
      rewrite (filter_cons (λ ws : nat, ws ∉ stale s) c conns).
      by case_decide.
    + rewrite IH. unfold after_broadcast.
      cbn [db active_connections stale delivered].
      rewrite (filter_cons (λ ws : nat, ws ∉ stale s) c conns).
      case_decide; [|done]. by rewrite fmap_cons, <- app_assoc.
Qed.
End broadcast.

Lemma broadcast_to_room_run (s : Server) (room_code : string) (msg : message) :
  broadcast_to_room room_code msg s
  = (Ok tt,
     after_broadcast msg (default [] (active_connections s !! room_code)) s).
Proof.
  unfold broadcast_to_room.
  destruct (active_connections s !! room_code) as [conns|]; cbn [default].
  - apply for_each_send.
  - destruct s; unfold after_broadcast; cbn. by rewrite app_nil_r.
Qed.

(** C8 (as the code has it).  [broadcast_to_room] returns normally whatever
    the sockets do; every socket of the room that is not stale is sent the
    message once, in registry order, also after a stale one; the registry is
    the same afterwards, the stale sockets still in it, and so is the
    database. *)
Theorem broadcast_to_room_best_effort (s : Server) (room_code : string)
    (msg : message) :
  ∃ s', broadcast_to_room room_code msg s = (Ok tt, s')
        ∧ delivered s'
          = delivered s ++
            ((λ ws, (ws, msg)) <$>
             filter (λ ws, ws ∉ stale s)
                    (default [] (active_connections s !! room_code)))
        ∧ active_connections s' = active_connections s
        ∧ stale s' = stale s
        ∧ db s' = db s.
Proof. eexists. split; [apply broadcast_to_room_run|done]. Qed.

(** ** Votes: the upsert of [save_vote] *)

Lemma filter_fmap_stable {A} (P : A → Prop) `{∀ x, Decision (P x)}
    (f : A → A) (l : list A) :
  (∀ x, P (f x) ↔ P x) → filter P (f <$> l) = f <$> filter P l.
Proof.
  intros HP. induction l as [|x l IH]; [done|].
  rewrite fmap_cons, !filter_cons.
  destruct (decide (P (f x))) as [Hx|Hx], (decide (P x)) as [Hx'|Hx'];
    rewrite ?fmap_cons, IH; try done; exfalso; specialize (HP x); tauto.
Qed.

Lemma length_filter_filter_le {A} (P Q : A → Prop) `{∀ x, Decision (P x)}
    `{∀ x, Decision (Q x)} (l : list A) :
  (length (filter P (filter Q l)) ≤ length (filter P l))%nat.
Proof.
  induction l as [|x l IH]; [done|].
  rewrite (filter_cons Q). destruct (decide (Q x)).
  - rewrite !filter_cons. destruct (decide (P x)); cbn; lia.
  - rewrite filter_cons. destruct (decide (P x)); cbn; lia.
Qed.

Lemma update_vote_key vote now id u m r v :
  same_vote_key u m r (update_vote vote now id v) ↔ same_vote_key u m r v.
Proof. unfold update_vote, same_vote_key. by case_decide. Qed.

Lemma update_vote_id vote now id v :
  Vote.id (update_vote vote now id v) = Vote.id v.
Proof. unfold update_vote. by case_decide. Qed.


Lemma save_vote_unique d u m r v now :
  votes_unique d → votes_unique (save_vote d u m r v now).
Proof.
  intros Hd u' m' r'. unfold save_vote.
  destruct (filter (same_vote_key u m r) (votes d)) as [|existing rest] eqn:Hf;
    cbn [votes].
  - rewrite filter_app, filter_cons, filter_nil.
    destruct (decide _) as [(? & ? & ?)|]; cbn in *; simplify_eq.
    + rewrite Hf. cbn. lia.
    + rewrite app_nil_r. apply Hd.
  - rewrite filter_fmap_stable by (intros; apply update_vote_key).
    rewrite length_fmap. apply Hd.
Qed.

Lemma save_vote_ids_wf d u m r v now :
  vote_ids_wf d → vote_ids_wf (save_vote d u m r v now).
Proof.
  intros [Hnd Hle]. unfold save_vote, vote_ids_wf.
  destruct (filter (same_vote_key u m r) (votes d)) as [|existing rest];
    cbn [votes votes_seq].
  - rewrite fmap_app. split.
    + apply NoDup_app. split_and!; [done| |apply NoDup_singleton].
      intros id Hid Hin. apply list_elem_of_singleton in Hin as ->.
      apply list_elem_of_fmap in Hid as (row & Hid & Hrow).
      rewrite Forall_forall in Hle. specialize (Hle _ Hrow).
      cbn in Hle, Hid. lia.
    + apply Forall_app. split.
      * eapply Forall_impl; [done|]. cbn. intros; lia.
      * apply Forall_singleton. cbn. lia.
  - split.
    + rewrite <- list_fmap_compose.
      erewrite list_fmap_ext; [done|]. intros ? ? _. cbn.
      apply update_vote_id.
    + apply Forall_fmap. eapply Forall_impl; [done|]. cbn. intros row ?.
      by rewrite update_vote_id.
Qed.

Lemma NoDup_fmap_filter {A B} (f : A → B) (P : A → Prop)
    `{∀ x, Decision (P x)} (l : list A) :
  NoDup (f <$> l) → NoDup (f <$> filter P l).
Proof.
  induction l as [|x l IH]; [done|].
  rewrite fmap_cons, NoDup_cons. intros [Hx Hl].
  rewrite filter_cons. destruct (decide (P x)); [|by apply IH].
  rewrite fmap_cons, NoDup_cons. split; [|by apply IH].
  intros Hin. apply Hx. apply list_elem_of_fmap in Hin as (y & -> & Hy).
  apply list_elem_of_fmap_2. by apply list_elem_of_filter in Hy as [_ ?].
Qed.

Lemma remove_participant_unique d u r :
  votes_unique d → votes_unique (remove_participant d u r).
Proof.
  intros Hd u' m' r'. cbn [remove_participant votes].
  etrans; [apply length_filter_filter_le|apply Hd].
Qed.

Lemma remove_participant_ids_wf d u r :
  vote_ids_wf d → vote_ids_wf (remove_participant d u r).
Proof.
  intros [Hnd Hle]. split; cbn [remove_participant votes votes_seq].
  - by apply NoDup_fmap_filter.
  - apply Forall_forall. intros row Hrow.
    apply list_elem_of_filter in Hrow as [_ Hrow].
    rewrite Forall_forall in Hle. by apply Hle.
Qed.

(** ** States the server can be in *)

Lemma reachable_foldl ops : ∀ d, reachable d → reachable (foldl apply_op d ops).
Proof.
  induction ops as [|o ops IH]; intros d Hd; [done|].
  cbn. apply IH. by constructor.
Qed.

Lemma add_movies_votes d room_code ms :
  votes (add_movies_to_room d room_code ms) = votes d
  ∧ votes_seq (add_movies_to_room d room_code ms) = votes_seq d.
Proof.
  unfold add_movies_to_room. revert d.
  induction ms as [|x ms IH]; intros d; [done|].
  cbn [foldl]. destruct (IH (insert_movie d room_code x)) as [-> ->]. done.
Qed.

Lemma apply_op_votes_same d o :
  (∀ u m r v now, o ≠ SaveVote u m r v now) →
  (∀ u r, o ≠ RemoveParticipant u r) →
  votes (apply_op d o) = votes d ∧ votes_seq (apply_op d o) = votes_seq d.
Proof.
  intros Hs Hr. destruct o; cbn.
  - unfold create_room. by destruct (generate_room_code _ _ _ _).
  - unfold join_room. by repeat (case_match || destruct (negb _)); cbn.
  - by destruct (Hr user_id room_code).
  - apply add_movies_votes.
  - by destruct (Hs user_id movie_id room_code vote now).
Qed.

Lemma reachable_votes_wf d : reachable d → votes_unique d ∧ vote_ids_wf d.
Proof.
  induction 1 as [|d o Hd [IHu IHi]].
  - split; [intros ???; cbn; lia|]. split; constructor.
  - assert (votes (apply_op d o) = votes d
            ∧ votes_seq (apply_op d o) = votes_seq d →
            votes_unique (apply_op d o) ∧ vote_ids_wf (apply_op d o)) as Hsame.
    { intros [Hv Hs]. unfold votes_unique, vote_ids_wf. by rewrite Hv, Hs. }
    destruct o; try (by apply Hsame, apply_op_votes_same).
    + split; [by apply remove_participant_unique
             |by apply remove_participant_ids_wf].
    + split; [by apply save_vote_unique|by apply save_vote_ids_wf].
Qed.








(** ** Matching *)

Lemma vote_group_yes_votes d room_code k :
  vote_group (yes_votes d room_code) k
  = filter (λ v, Vote.room_code v = room_code ∧ Vote.movie_id v = k
                 ∧ Vote.vote v = 1) (votes d).
Proof.
  unfold vote_group, yes_votes. rewrite list_filter_filter.
  apply list_filter_iff. intros v. tauto.
Qed.

Lemma count_distinct_approvers d room_code k :
  count_distinct_user_id (vote_group (yes_votes d room_code) k)
  = length (approvers d room_code k).
Proof. unfold count_distinct_user_id. by rewrite vote_group_yes_votes. Qed.

Lemma elem_of_approvers d room_code k u :
  u ∈ approvers d room_code k ↔
  ∃ v, v ∈ votes d ∧ Vote.user_id v = u ∧ Vote.room_code v = room_code
       ∧ Vote.movie_id v = k ∧ Vote.vote v = 1.
Proof.
  unfold approvers. rewrite elem_of_remove_dups, list_elem_of_fmap. split.
  - intros (v & -> & Hv). apply list_elem_of_filter in Hv as [? ?].
    by exists v.
  - intros (v & Hv & <- & ?). exists v. split; [done|].
    by apply list_elem_of_filter.
Qed.

Lemma unanimous_movie_ids_iff d room_code n k :
  k ∈ unanimous_movie_ids d room_code n ↔
  (1 ≤ n)%nat ∧ length (approvers d room_code k) = n.
Proof.
  unfold unanimous_movie_ids, vote_group_keys.
  rewrite list_elem_of_filter, elem_of_remove_dups, list_elem_of_fmap.
  rewrite count_distinct_approvers. split.
  - intros [Hlen (v & -> & Hv)]. split; [|done].
    assert (Vote.user_id v ∈ approvers d room_code (Vote.movie_id v)) as Hin.
    { apply elem_of_approvers. exists v.
      apply list_elem_of_filter in Hv as [[? ?] ?]. done. }
    destruct (approvers d room_code (Vote.movie_id v));
      [by apply elem_of_nil in Hin|cbn in Hlen; lia].
  - intros [Hn Hlen]. split; [done|].
    destruct (approvers d room_code k) as [|u l] eqn:Hl; [cbn in Hlen; lia|].
    assert (u ∈ approvers d room_code k) as Hin by (rewrite Hl; left).
    apply elem_of_approvers in Hin as (v & Hv & _ & ? & ? & ?).
    exists v. split; [done|]. by apply list_elem_of_filter.
Qed.

(** The rows [get_matched_movies] fetches, said in one filter. *)
Lemma matched_rows_filter d room_code :
  matched_rows d room_code
  = filter (λ m, Movie.room_code m = room_code
                 ∧ (1 ≤ participant_count d room_code)%nat
                 ∧ length (approvers d room_code (Movie.movie_id m))
                   = participant_count d room_code)
           (movies d).
Proof.
  unfold matched_rows. apply list_filter_iff. intros m.
  by rewrite unanimous_movie_ids_iff.
Qed.

(** With no participant in the room nothing is matched. *)
Lemma matched_rows_no_participants d room_code :
  participant_count d room_code = 0%nat → get_matched_movies d room_code = [].
Proof.
  intros H0. unfold get_matched_movies. rewrite matched_rows_filter, H0.
  induction (movies d) as [|m l IH]; [done|].
  rewrite filter_cons, decide_False; [done|]. intros (_ & ? & _). lia.
Qed.





(** ** Room codes *)

Lemma length_join cs : String.length (join cs) = length cs.
Proof. induction cs as [|c cs IH]; [done|]. cbn. by rewrite <- IH. Qed.

Lemma length_choices population k r pos :
  length (choices population k r pos) = k.
Proof. unfold choices. by rewrite length_fmap, length_seq. Qed.

Lemma choices_in_population population k r pos :
  population ≠ [] → Forall (λ c, c ∈ population) (choices population k r pos).
Proof.
  intros Hne. unfold choices. apply Forall_fmap, Forall_forall.
  intros i _. cbn. apply list_elem_of_In, nth_In.
  apply Nat.mod_upper_bound. by destruct population.
Qed.

Lemma room_exists_false d code :
  room_exists d code = false →
  ¬ Exists (λ room, Room.room_code room = code) (rooms d).
Proof. unfold room_exists. by intros ?%bool_decide_eq_false. Qed.



(** ** Endpoints *)

Lemma user_id_not_empty r pos :
  join (choices (ascii_lowercase ++ digits) 16 r pos) ≠ "".
Proof.
  intros Heq. apply (f_equal String.length) in Heq.
  by rewrite length_join, length_choices in Heq.
Qed.

(** POST /api/rooms/join for an unknown room: 404, nothing changes. *)
Lemma join_room_endpoint_not_found s request r pos now :
  room_exists (db s) (JoinRoomRequest.room_code request) = false →
  join_room (db s) (JoinRoomRequest.room_code request)
            (JoinRoomRequest.username request) r pos now = (Ok None, db s)
  ∧ join_room_endpoint request r pos now s
    = (Raise (HTTPException 404 "Room not found"), s).
Proof.
  intros Hroom.
  assert (join_room (db s) (JoinRoomRequest.room_code request)
            (JoinRoomRequest.username request) r pos now = (Ok None, db s))
    as Hjoin by (unfold join_room; by rewrite Hroom).
  split; [done|].
  unfold join_room_endpoint, try_except, bind, db_join_room.
  rewrite Hjoin. by destruct s.
Qed.

(** POST /api/rooms/join for a known room and a drawn id that is free. *)
Lemma join_room_endpoint_joined s request r pos now :
  let room_code := JoinRoomRequest.room_code request in
  let username := JoinRoomRequest.username request in
  let user_id := join (choices (ascii_lowercase ++ digits) 16 r pos) in
  let d' :=
    mkDatabase (rooms (db s))
      (participants (db s) ++ [Participant.mk user_id username room_code now])
      (movies (db s)) (votes (db s)) (movies_seq (db s)) (votes_seq (db s)) in
  room_exists (db s) room_code = true →
  user_id_taken (db s) user_id = false →
  join_room_endpoint request r pos now s
  = (Ok (JoinRoomResponse.mk user_id room_code username "Joined successfully"),
     after_broadcast (UserJoined username (get_participants d' room_code))
       (default [] (active_connections s !! room_code))
       (mkServer d' (active_connections s) (stale s) (delivered s))).
Proof.
  intros room_code username user_id d' Hroom Htaken.
  unfold join_room_endpoint, try_except, bind at 1, db_join_room, join_room.
  fold room_code username user_id. rewrite Hroom, Htaken. cbn [negb].
  fold d'. rewrite decide_False by apply user_id_not_empty.
  unfold bind, get_db, ret. cbn [db].
  by rewrite broadcast_to_room_run.
Qed.


(** ** The scenarios of the specification *)

Lemma db_room_reachable : reachable db_room.
Proof. apply reachable_foldl, reachable_empty. Qed.

Lemma db_two_reachable : reachable db_two.
Proof. apply reachable_foldl, reachable_step, db_room_reachable. Qed.

Example scenario_two_participants :
  get_matched_movies db_two "AB12CD" = [MovieDict.mk 101 "A"]
  ∧ get_vote_progress db_two "AB12CD" = Progress.mk 2 1 2.
Proof. by vm_compute. Qed.

Example scenario_p2_leaves :
  let d := remove_participant db_two p2 "AB12CD" in
  get_matched_movies d "AB12CD" = [MovieDict.mk 101 "A"; MovieDict.mk 102 "B"]
  ∧ get_vote_progress d "AB12CD" = Progress.mk 2 2 1.
Proof. by vm_compute. Qed.

(** ** Where the code differs from the specification *)



(** C2, at the room without participants: [get_vote_progress] reports two
    matched movies and [get_matched_movies] returns none. *)
Theorem progress_count_differs_from_matches :
  participant_count db_room "AB12CD" = 0%nat
  ∧ Progress.movies_with_all_votes (get_vote_progress db_room "AB12CD") = 2%nat
  ∧ length (get_matched_movies db_room "AB12CD") = 0%nat.
Proof. by vm_compute. Qed.

(** C3, at a room without participants and with a stale approval of 101:
    [get_matched_movies] returns nothing, and [get_vote_progress] reports one
    matched movie, 102, the one without approval rows. *)
Theorem zero_participants_progress_not_zero :
  participant_count db_stale "AB12CD" = 0%nat
  ∧ get_matched_movies db_stale "AB12CD" = []
  ∧ get_vote_progress db_stale "AB12CD" = Progress.mk 2 1 0.
Proof. by vm_compute. Qed.

(** C6, when the sixteen characters drawn are the id of a participant:
    [join_room] raises on the primary key, the endpoint answers 500, and no
    participant is recorded. *)
Theorem join_room_id_collision :
  room_exists db_one "AB12CD" = true
  ∧ join_room db_one "AB12CD" "Bob" rng_demo 6 "t2"
    = (Raise (IntegrityError "UNIQUE constraint failed: participants.user_id"),
       db_one)
  ∧ join_room_endpoint (JoinRoomRequest.mk "AB12CD" "Bob") rng_demo 6 "t2"
      (mkServer db_one ∅ ∅ [])
    = (Raise (HTTPException 500 "Error joining room"), mkServer db_one ∅ ∅ []).
Proof. by vm_compute. Qed.

(** Socket 2 is stale and is still registered after the broadcast. *)
Lemma broadcast_keeps_stale_socket :
  ¬ evicts_failed srv_demo "AB12CD" (Echo "hello").
Proof.
  intros H. apply (H 2%nat [1; 2; 3]%nat).
  - apply (bool_decide_unpack _). by vm_compute.
  - by vm_compute.
  - apply (bool_decide_unpack _). by vm_compute.
Qed.







(** * Further properties of the room store *)

(** ** What the tables always look like *)

Lemma drawn_from_choices population n r pos :
  population ≠ [] → drawn_from population n (join (choices population n r pos)).
Proof.
  intros Hne. split.
  - by rewrite length_join, length_choices.
  - unfold join. rewrite String.list_ascii_of_string_of_list_ascii.
    by apply choices_in_population.
Qed.

Lemma generate_room_code_sound fuel : ∀ d r pos code,
  generate_room_code fuel d r pos = Some code →
  room_exists d code = false ∧ drawn_from (ascii_uppercase ++ digits) 6 code.
Proof.
  induction fuel as [|fuel IH]; intros d r pos code; [done|].
  cbn [generate_room_code].
  destruct (room_exists d _) eqn:Hex; [apply IH|].
  intros Heq. apply (inj Some) in Heq. subst code.
  split; [done|]. by apply drawn_from_choices.
Qed.

Lemma room_exists_rooms d d' code :
  rooms d' = rooms d → room_exists d' code = room_exists d code.
Proof. unfold room_exists. by intros ->. Qed.

Lemma room_exists_insert_room d code now c :
  room_exists d c = true → room_exists (insert_room d code now) c = true.
Proof.
  unfold room_exists. rewrite !bool_decide_eq_true. cbn [insert_room rooms].
  rewrite Exists_app. by left.
Qed.

Lemma add_movies_rooms_participants d room_code ms :
  rooms (add_movies_to_room d room_code ms) = rooms d
  ∧ participants (add_movies_to_room d room_code ms) = participants d.
Proof.
  unfold add_movies_to_room. revert d.
  induction ms as [|x ms IH]; intros d; [done|].
  cbn [foldl]. destruct (IH (insert_movie d room_code x)) as [-> ->]. done.
Qed.

Lemma participants_wf_same d d' :
  rooms d' = rooms d → participants d' = participants d →
  participants_wf d → participants_wf d'.
Proof.
  intros Hr Hp [Hnd Hall]. unfold participants_wf. rewrite Hp. split; [done|].
  eapply Forall_impl; [done|]. cbn. intros p [? ?].
  by rewrite (room_exists_rooms d d').
Qed.

Lemma rooms_wf_same d d' : rooms d' = rooms d → rooms_wf d → rooms_wf d'.
Proof. unfold rooms_wf. by intros ->. Qed.

Lemma create_room_wf fuel d r pos now code d' :
  create_room fuel d r pos now = Some (code, d') →
  rooms_wf d → participants_wf d → rooms_wf d' ∧ participants_wf d'.
Proof.
  unfold create_room.
  destruct (generate_room_code fuel d r pos) as [c|] eqn:Hgen; [|done].
  intros [= <- <-] [Hnd Hall] [Hpnd Hpall].
  apply generate_room_code_sound in Hgen as [Hfree Hcode]. split; split.
  - cbn [insert_room rooms]. rewrite fmap_app. apply NoDup_app.
    split_and!; [done| |apply NoDup_singleton].
    intros x Hx Hc. apply list_elem_of_singleton in Hc. cbn in Hc. subst x.
    apply room_exists_false in Hfree. apply Hfree.
    apply list_elem_of_fmap in Hx as (room & -> & Hroom).
    apply Exists_exists. by exists room.
  - cbn [insert_room rooms]. apply Forall_app. split; [done|].
    by apply Forall_singleton.
  - done.
  - cbn [insert_room participants]. eapply Forall_impl; [done|].
    cbn. intros p [? ?]. split; [done|]. by apply room_exists_insert_room.
Qed.

Lemma join_room_wf d room_code username r pos now res d' :
  join_room d room_code username r pos now = (res, d') →
  rooms_wf d → participants_wf d → rooms_wf d' ∧ participants_wf d'.
Proof.
  unfold join_room. destruct (room_exists d room_code) eqn:Hroom; cbn [negb].
  2:{ by intros [= <- <-]. }
  destruct (user_id_taken d _) eqn:Htaken; [by intros [= <- <-]|].
  intros [_ <-]%pair_equal_spec Hr [Hnd Hall]. split; [done|]. split.
  - cbn [participants]. rewrite fmap_app. apply NoDup_app.
    split_and!; [done| |apply NoDup_singleton].
    intros x Hx Hc. apply list_elem_of_singleton in Hc.
    cbn [Participant.user_id] in Hc. subst x.
    unfold user_id_taken in Htaken. apply bool_decide_eq_false in Htaken.
    apply Htaken. apply list_elem_of_fmap in Hx as (p & Hp & Hin).
    apply Exists_exists. by exists p.
  - cbn [participants]. apply Forall_app. split.
    + eapply Forall_impl; [done|]. by cbn.
    + apply Forall_singleton. split; [|done]. by apply drawn_from_choices.
Qed.

Lemma remove_participant_wf d u room_code :
  participants_wf d → participants_wf (remove_participant d u room_code).
Proof.
  intros [Hnd Hall]. split; cbn [remove_participant participants].
  - by apply NoDup_fmap_filter.
  - apply Forall_forall. intros p Hp.
    apply list_elem_of_filter in Hp as [_ Hp].
    rewrite Forall_forall in Hall. by apply Hall.
Qed.

Lemma reachable_rooms_participants_wf d :
  reachable d → rooms_wf d ∧ participants_wf d.
Proof.
  induction 1 as [|d o Hd [IHr IHp]].
  - split; split; constructor.
  - destruct o; cbn [apply_op].
    + destruct (create_room fuel d r pos now) as [[code d']|] eqn:Hc; [|done].
      by eapply create_room_wf.
    + destruct (join_room d room_code username r pos now) as [res d'] eqn:Hj.
      by eapply join_room_wf.
    + split; [done|]. by apply remove_participant_wf.
    + destruct (add_movies_rooms_participants d room_code ms) as [Hr Hp].
      split; [by eapply rooms_wf_same|by eapply participants_wf_same].
    + assert (rooms (save_vote d user_id movie_id room_code vote now) = rooms d
              ∧ participants (save_vote d user_id movie_id room_code vote now)
                = participants d) as [Hr Hp]
        by (unfold save_vote; by case_match).
      split; [by eapply rooms_wf_same|by eapply participants_wf_same].
Qed.

(** X1.  In every state the server can be in, no two rooms share a code,
    every room code is six characters out of A-Z and 0-9, and every room is
    active. *)
Theorem reachable_rooms_wf (d : Database) :
  reachable d →
  NoDup (Room.room_code <$> rooms d)
  ∧ ∀ room, room ∈ rooms d →
      String.length (Room.room_code room) = 6%nat
      ∧ Forall (λ c, c ∈ ascii_uppercase ++ digits)
               (String.list_ascii_of_string (Room.room_code room))
      ∧ Room.status room = "active".
Proof.
  intros [[Hnd Hall] _]%reachable_rooms_participants_wf. split; [done|].
  intros room Hroom. rewrite Forall_forall in Hall.
  by destruct (Hall room Hroom) as [[? ?] ?].
Qed.

Lemma reachable_rooms_wf_witness :
  NoDup (Room.room_code <$> rooms db_two)
  ∧ ∀ room, room ∈ rooms db_two →
      String.length (Room.room_code room) = 6%nat
      ∧ Forall (λ c, c ∈ ascii_uppercase ++ digits)
               (String.list_ascii_of_string (Room.room_code room))
      ∧ Room.status room = "active".
Proof. apply (reachable_rooms_wf db_two). exact db_two_reachable. Defined.

(** X2.  In every state the server can be in, no two participants share a
    user id, every user id is sixteen characters out of a-z and 0-9, and the
    room of every participant is in the rooms table. *)
Theorem reachable_participants_wf (d : Database) :
  reachable d →
  NoDup (Participant.user_id <$> participants d)
  ∧ ∀ p, p ∈ participants d →
      String.length (Participant.user_id p) = 16%nat
      ∧ Forall (λ c, c ∈ ascii_lowercase ++ digits)
               (String.list_ascii_of_string (Participant.user_id p))
      ∧ ∃ room, room ∈ rooms d
                ∧ Room.room_code room = Participant.room_code p.
Proof.
  intros [_ [Hnd Hall]]%reachable_rooms_participants_wf. split; [done|].
  intros p Hp. rewrite Forall_forall in Hall.
  destruct (Hall p Hp) as [[? ?] Hroom]. split_and!; [done..|].
  unfold room_exists in Hroom. apply bool_decide_eq_true in Hroom.
  by apply Exists_exists in Hroom.
Qed.

Lemma reachable_participants_wf_witness :
  NoDup (Participant.user_id <$> participants db_two)
  ∧ ∀ p, p ∈ participants db_two →
      String.length (Participant.user_id p) = 16%nat
      ∧ Forall (λ c, c ∈ ascii_lowercase ++ digits)
               (String.list_ascii_of_string (Participant.user_id p))
      ∧ ∃ room, room ∈ rooms db_two
                ∧ Room.room_code room = Participant.room_code p.
Proof. apply (reachable_participants_wf db_two). exact db_two_reachable. Defined.

(** ** Movies of a room *)




Lemma insert_movie_wf d room_code movie :
  movies_wf d → movies_wf (insert_movie d room_code movie).
Proof.
  intros [Hnd Hall]. split; cbn [insert_movie movies movies_seq].
  - rewrite fmap_app. apply NoDup_app. split_and!; [done| |apply NoDup_singleton].
    intros x Hx Hc. apply list_elem_of_singleton in Hc. cbn in Hc. subst x.
    apply list_elem_of_fmap in Hx as (m & Hm & Hin).
    rewrite Forall_forall in Hall. destruct (Hall m Hin) as [Hle _]. lia.
  - apply Forall_app. split.
    + eapply Forall_impl; [done|]. cbn. intros m [? ?]. split; [lia|done].
    + apply Forall_singleton. cbn. split; [lia|done].
Qed.

Lemma add_movies_wf d room_code ms :
  movies_wf d → movies_wf (add_movies_to_room d room_code ms).
Proof.
  unfold add_movies_to_room. revert d.
  induction ms as [|x ms IH]; intros d Hd; [done|].
  cbn [foldl]. by apply IH, insert_movie_wf.
Qed.

Lemma movies_wf_same d d' :
  movies d' = movies d → movies_seq d' = movies_seq d →
  movies_wf d → movies_wf d'.
Proof. unfold movies_wf. by intros -> ->. Qed.

Lemma reachable_movies_wf_all d : reachable d → movies_wf d.
Proof.
  induction 1 as [|d o Hd IH]; [split; constructor|].
  destruct o; cbn [apply_op].
  - unfold create_room. by destruct (generate_room_code _ _ _ _).
  - unfold join_room.
    destruct (room_exists d room_code); cbn [negb snd]; [|done].
    by destruct (user_id_taken d _).
  - done.
  - by apply add_movies_wf.
  - eapply movies_wf_same; [..|done]; unfold save_vote; by case_match.
Qed.

(** X4.  In every state the server can be in, the rows of the movies table
    have distinct row ids and the column [movie_id], by which votes are
    matched, is the id inside the stored dictionary. *)
Theorem reachable_movies_wf (d : Database) :
  reachable d →
  NoDup (Movie.id <$> movies d)
  ∧ ∀ m, m ∈ movies d → Movie.movie_id m = MovieDict.id (Movie.movie_data m).
Proof.
  intros [Hnd Hall]%reachable_movies_wf_all. split; [done|].
  intros m Hm. rewrite Forall_forall in Hall. by destruct (Hall m Hm).
Qed.

Lemma reachable_movies_wf_witness :
  NoDup (Movie.id <$> movies db_two)
  ∧ ∀ m, m ∈ movies db_two →
         Movie.movie_id m = MovieDict.id (Movie.movie_data m).
Proof. apply (reachable_movies_wf db_two). exact db_two_reachable. Defined.

(** ** Joining and leaving *)

(** X5.  Whenever [join_room] returns a user id, the room exists, the id was
    no participant's id before, the room's participant list is the old one
    followed by the new participant, every other room's list is as before,
    and rooms, movies and votes are not touched. *)
Theorem join_room_success (d : Database) (room_code username : string)
    (r : rng) (pos : nat) (now user_id : string) (d' : Database) :
  join_room d room_code username r pos now = (Ok (Some user_id), d') →
  room_exists d room_code = true
  ∧ user_id_taken d user_id = false
  ∧ get_participants d' room_code
    = get_participants d room_code ++ [(user_id, username)]
  ∧ participant_count d' room_code = S (participant_count d room_code)
  ∧ (∀ rc, rc ≠ room_code → get_participants d' rc = get_participants d rc)
  ∧ rooms d' = rooms d ∧ movies d' = movies d ∧ votes d' = votes d.
Proof.
  unfold join_room. destruct (room_exists d room_code) eqn:Hroom; cbn [negb].
  2:{ by intros [? _]%pair_equal_spec. }
  destruct (user_id_taken d _) eqn:Htaken; [by intros [? _]%pair_equal_spec|].
  intros [Hid <-]%pair_equal_spec.
  assert (user_id = join (choices (ascii_lowercase ++ digits) 16 r pos))
    as -> by congruence.
  clear Hid. split_and!; try done.
  - unfold get_participants. cbn [participants].
    rewrite filter_app, fmap_app. f_equal.
    by rewrite filter_cons_True.
  - unfold participant_count. cbn [participants].
    rewrite filter_app, length_app, filter_cons_True by done. cbn. lia.
  - intros rc Hne. unfold get_participants. cbn [participants].
    rewrite filter_app, filter_cons_False, filter_nil, app_nil_r; [done|].
    cbn. by intros ->.
Qed.

Lemma join_room_success_witness :
  room_exists db_room "AB12CD" = true
  ∧ user_id_taken db_room p1 = false
  ∧ get_participants db_one "AB12CD"
    = get_participants db_room "AB12CD" ++ [(p1, "Ann")]
  ∧ participant_count db_one "AB12CD" = S (participant_count db_room "AB12CD")
  ∧ (∀ rc, rc ≠ "AB12CD" → get_participants db_one rc = get_participants db_room rc)
  ∧ rooms db_one = rooms db_room ∧ movies db_one = movies db_room
  ∧ votes db_one = votes db_room.
Proof.
  apply (join_room_success db_room "AB12CD" "Ann" rng_demo 6 "t1" p1 db_one).
  by vm_compute.
Defined.

Lemma filter_not_key_all (l : list Participant.t) u rc :
  u ∉ Participant.user_id <$> l →
  filter (λ p, ¬ (Participant.user_id p = u ∧ Participant.room_code p = rc)) l
  = l.
Proof.
  induction l as [|a l IH]; [done|].
  rewrite fmap_cons, not_elem_of_cons. intros [Ha Hl].
  rewrite filter_cons_True; [by rewrite IH|]. intros [? _]. by apply Ha.
Qed.

Lemma remove_one_participant (l : list Participant.t) p :
  NoDup (Participant.user_id <$> l) → p ∈ l →
  let gone (q : Participant.t) :=
    ¬ (Participant.user_id q = Participant.user_id p
       ∧ Participant.room_code q = Participant.room_code p) in
  length (filter (λ q, Participant.room_code q = Participant.room_code p) l)
  = S (length (filter (λ q, Participant.room_code q = Participant.room_code p)
                      (filter gone l))).
Proof.
  intros Hnd Hp gone. induction l as [|a l IH]; [by apply elem_of_nil in Hp|].
  rewrite fmap_cons, NoDup_cons in Hnd. destruct Hnd as [Ha Hnd].
  apply elem_of_cons in Hp as [->|Hp].
  - rewrite filter_cons_True by done.
    rewrite (filter_cons gone), decide_False by (intros Hg; by apply Hg).
    unfold gone. by rewrite filter_not_key_all.
  - assert (gone a) as Hga.
    { intros [Hu _]. apply Ha. rewrite Hu. by apply list_elem_of_fmap_2. }
    rewrite (filter_cons gone), decide_True by done.
    rewrite !(filter_cons (λ q, Participant.room_code q = _)).
    case_decide; cbn [length]; by rewrite IH.
Qed.

Lemma listing_without_user (l : list Participant.t) u rc :
  (λ p, (Participant.user_id p, Participant.username p)) <$>
    filter (λ p, Participant.room_code p = rc)
      (filter (λ p, ¬ (Participant.user_id p = u
                       ∧ Participant.room_code p = rc)) l)
  = filter (λ x, x.1 ≠ u)
      ((λ p, (Participant.user_id p, Participant.username p)) <$>
       filter (λ p, Participant.room_code p = rc) l).
Proof.
  induction l as [|a l IH]; [done|].
  rewrite !filter_cons.
  destruct (decide (Participant.room_code a = rc)) as [Hr|Hr].
  - rewrite fmap_cons, filter_cons. cbn [fst].
    destruct (decide (Participant.user_id a = u)) as [Hu|Hu].
    + rewrite decide_False by (intros Hg; by apply Hg).
      by rewrite decide_False by (intros Hg; by apply Hg).
    + rewrite decide_True by (by intros [? _]).
      rewrite filter_cons_True by done.
      rewrite decide_True by done. by rewrite fmap_cons, IH.
  - rewrite decide_True by (by intros [_ ?]).
    by rewrite filter_cons_False.
Qed.

(** X6.  In a state the server can be in, [remove_participant] for a
    participant of the room lowers the room's participant count by exactly
    one and drops exactly that user from the room's list; the lists of all
    other rooms, the rooms and the movies are as before. *)
Theorem remove_participant_count (d : Database) (p : Participant.t) :
  reachable d → p ∈ participants d →
  let user_id := Participant.user_id p in
  let room_code := Participant.room_code p in
  let d' := remove_participant d user_id room_code in
  participant_count d room_code = S (participant_count d' room_code)
  ∧ get_participants d' room_code
    = filter (λ x, x.1 ≠ user_id) (get_participants d room_code)
  ∧ (∀ rc, rc ≠ room_code → get_participants d' rc = get_participants d rc)
  ∧ rooms d' = rooms d ∧ movies d' = movies d.
Proof.
  intros Hd Hp user_id room_code d'.
  destruct (reachable_rooms_participants_wf d Hd) as [_ [Hnd _]].
  split_and!; try done.
  - unfold participant_count, d'. cbn [remove_participant participants].
    by apply remove_one_participant.
  - unfold get_participants, d'. cbn [remove_participant participants].
    apply listing_without_user.
  - intros rc Hne. unfold get_participants, d'.
    cbn [remove_participant participants].
    rewrite list_filter_filter. f_equal. apply list_filter_iff.
    intros q. split; [by intros [? _]|]. intros Hq. split; [done|].
    intros [_ Hr]. apply Hne. by rewrite <- Hq.
Qed.

Lemma remove_participant_count_witness :
  let p := Participant.mk p2 "Bob" "AB12CD" "t2" in
  let d' := remove_participant db_two p2 "AB12CD" in
  participant_count db_two "AB12CD" = S (participant_count d' "AB12CD")
  ∧ get_participants d' "AB12CD"
    = filter (λ x, x.1 ≠ p2) (get_participants db_two "AB12CD")
  ∧ (∀ rc, rc ≠ "AB12CD" → get_participants d' rc = get_participants db_two rc)
  ∧ rooms d' = rooms db_two ∧ movies d' = movies db_two.
Proof.
  apply (remove_participant_count db_two (Participant.mk p2 "Bob" "AB12CD" "t2")).
  - exact db_two_reachable.
  - apply (bool_decide_unpack _). by vm_compute.
Defined.

(** ** Matching after a participant has left *)

Lemma approvers_after_remove d u room_code k x :
  x ∈ approvers (remove_participant d u room_code) room_code k ↔
  x ∈ approvers d room_code k ∧ x ≠ u.
Proof.
  rewrite !elem_of_approvers. split.
  - intros (row & Hrow & <- & Hr & Hk & H1).
    apply remove_participant_votes in Hrow as [Hrow Hkey].
    split; [by exists row|]. intros Hu. by apply Hkey.
  - intros [(row & Hrow & <- & Hr & Hk & H1) Hne]. exists row.
    split; [|done]. apply remove_participant_votes. split; [done|].
    by intros [? _].
Qed.

Lemma approvers_length_after_remove d u room_code k :
  length (approvers d room_code k)
  = (length (approvers (remove_participant d u room_code) room_code k)
     + if decide (u ∈ approvers d room_code k) then 1 else 0)%nat.
Proof.
  case_decide as Hu.
  - assert (approvers d room_code k
            ≡ₚ u :: approvers (remove_participant d u room_code) room_code k)
      as ->; [|cbn; lia].
    apply NoDup_Permutation.
    + apply NoDup_remove_dups.
    + apply NoDup_cons. split; [|apply NoDup_remove_dups].
      rewrite approvers_after_remove. by intros [_ ?].
    + intros x. rewrite elem_of_cons, approvers_after_remove. split.
      * intros Hx. destruct (decide (x = u)); [by left|by right].
      * by intros [->|[? _]].
  - assert (approvers d room_code k
            ≡ₚ approvers (remove_participant d u room_code) room_code k)
      as ->; [|lia].
    apply NoDup_Permutation; [apply NoDup_remove_dups..|].
    intros x. rewrite approvers_after_remove. split; [|by intros [? _]].
    intros Hx. split; [done|]. by intros ->.
Qed.

(** X7.  Matching is recomputed when a participant leaves.  In a state the
    server can be in, after [remove_participant] for a participant [p] a
    movie of the room is matched exactly when at least one other participant
    remains and the distinct approving user ids of the movie, [p] not
    counted, are as many as the remaining participants. *)
Theorem matched_after_leave (d : Database) (p : Participant.t) (m : Movie.t) :
  reachable d → p ∈ participants d → m ∈ movies d →
  let user_id := Participant.user_id p in
  let room_code := Participant.room_code p in
  Movie.room_code m = room_code →
  m ∈ matched_rows (remove_participant d user_id room_code) room_code ↔
  (2 ≤ participant_count d room_code)%nat
  ∧ length (approvers d room_code (Movie.movie_id m))
    = (if decide (user_id ∈ approvers d room_code (Movie.movie_id m))
       then participant_count d room_code
       else participant_count d room_code - 1)%nat.
Proof.
  intros Hd Hp Hm user_id room_code Hroom.
  destruct (reachable_rooms_participants_wf d Hd) as [_ [Hnd _]].
  pose proof (remove_one_participant (participants d) p Hnd Hp) as Hcount.
  cbv zeta in Hcount.
  change (participant_count d room_code
          = S (participant_count (remove_participant d user_id room_code)
                                 room_code)) in Hcount.
  rewrite matched_rows_filter, list_elem_of_filter.
  cbn [remove_participant movies].
  rewrite (approvers_length_after_remove d user_id room_code (Movie.movie_id m)).
  rewrite Hcount. case_decide; split.
  - intros [(_ & ? & ?) _]. lia.
  - intros [? ?]. split_and!; [done|lia|lia|done].
  - intros [(_ & ? & ?) _]. lia.
  - intros [? ?]. split_and!; [done|lia|lia|done].
Qed.

Lemma matched_after_leave_witness :
  movie_102 ∈ matched_rows (remove_participant db_two p2 "AB12CD") "AB12CD" ↔
  (2 ≤ participant_count db_two "AB12CD")%nat
  ∧ length (approvers db_two "AB12CD" 102)
    = (if decide (p2 ∈ approvers db_two "AB12CD" 102)
       then participant_count db_two "AB12CD"
       else participant_count db_two "AB12CD" - 1)%nat.
Proof.
  apply (matched_after_leave db_two (Participant.mk p2 "Bob" "AB12CD" "t2")
           movie_102).
  - exact db_two_reachable.
  - apply (bool_decide_unpack _). by vm_compute.
  - apply (bool_decide_unpack _). by vm_compute.
  - done.
Defined.

(** ** The matched count of the progress *)

Lemma left_join_votes_cons m ms vs :
  left_join_votes (m :: ms) vs = joined_rows m vs ++ left_join_votes ms vs.
Proof. done. Qed.

Lemma joined_rows_fst m vs : Forall (λ row, row.1 = m) (joined_rows m vs).
Proof.
  unfold joined_rows. destruct (filter _ vs) as [|v l].
  - by apply Forall_singleton.
  - apply Forall_fmap. by apply Forall_true.
Qed.

Lemma joined_rows_not_nil m vs : joined_rows m vs ≠ [].
Proof. unfold joined_rows. by destruct (filter _ vs). Qed.

Lemma filter_fst_const {A B} (Q : A → Prop) `{∀ x, Decision (Q x)} (a : A)
    (l : list (A * B)) :
  Forall (λ row, row.1 = a) l →
  filter (λ row, Q (row.1)) l = if decide (Q a) then l else [].
Proof.
  induction 1 as [|row l Hrow Hl IH]; [by case_decide|].
  rewrite filter_cons, IH, Hrow. by case_decide.
Qed.

Lemma left_join_votes_filter (Q : Movie.t → Prop) `{∀ m, Decision (Q m)} ms vs :
  filter (λ row, Q (row.1)) (left_join_votes ms vs)
  = left_join_votes (filter Q ms) vs.
Proof.
  induction ms as [|m ms IH]; [done|].
  rewrite left_join_votes_cons, filter_app, IH, filter_cons.
  rewrite (filter_fst_const Q m) by apply joined_rows_fst.
  case_decide; [by rewrite left_join_votes_cons|done].
Qed.

Lemma count_v_id_joined_rows m vs :
  count_v_id (joined_rows m vs)
  = length (filter (λ v, Movie.movie_id m = Vote.movie_id v
                         ∧ Movie.room_code m = Vote.room_code v
                         ∧ Vote.vote v = 1) vs).
Proof.
  unfold joined_rows, count_v_id.
  destruct (filter _ vs) as [|v l]; [done|].
  generalize (v :: l). intros l'.
  induction l' as [|v' l' IH]; [done|].
  rewrite fmap_cons, filter_cons_True by (by eexists). cbn. by rewrite IH.
Qed.

Lemma filter_key_absent {A B} `{EqDecision B} (f : A → B) (l : list A) b :
  b ∉ f <$> l → filter (λ y, f y = b) l = [].
Proof.
  induction l as [|a l IH]; [done|].
  rewrite fmap_cons, not_elem_of_cons. intros [Hne Hl].
  rewrite filter_cons_False by (by intros ?). by apply IH.
Qed.

Lemma filter_same_key_singleton {A B} `{EqDecision B} (f : A → B)
    (l : list A) x :
  NoDup (f <$> l) → x ∈ l → filter (λ y, f y = f x) l = [x].
Proof.
  induction l as [|a l IH]; [by intros _ ?%elem_of_nil|].
  rewrite fmap_cons, NoDup_cons. intros [Ha Hl] Hx.
  apply elem_of_cons in Hx as [->|Hx].
  - rewrite filter_cons_True by done. by rewrite filter_key_absent.
  - rewrite filter_cons_False; [by apply IH|].
    intros Heq. apply Ha. rewrite Heq. by apply list_elem_of_fmap_2.
Qed.

Lemma filter_ext_elem {A} (P Q : A → Prop) `{∀ x, Decision (P x)}
    `{∀ x, Decision (Q x)} (l : list A) :
  (∀ x, x ∈ l → P x ↔ Q x) → filter P l = filter Q l.
Proof.
  induction l as [|a l IH]; [done|]. intros Hext.
  rewrite !filter_cons, IH by (intros x Hx; apply Hext; by right).
  apply decide_ext, Hext. by left.
Qed.

Lemma length_filter_fmap {A B} (f : A → B) (P : B → Prop)
    `{∀ x, Decision (P x)} (l : list A) :
  length (filter P (f <$> l)) = length (filter (λ x, P (f x)) l).
Proof.
  induction l as [|a l IH]; [done|].
  rewrite fmap_cons, !filter_cons. case_decide; cbn; by rewrite IH.
Qed.

Lemma approval_rows_users_NoDup (l : list Vote.t) room_code k :
  (∀ u, (length (filter (same_vote_key u k room_code) l) ≤ 1)%nat) →
  NoDup (Vote.user_id <$>
         filter (λ v, Vote.room_code v = room_code ∧ Vote.movie_id v = k
                      ∧ Vote.vote v = 1) l).
Proof.
  induction l as [|a l IH]; intros Hu; [constructor|].
  assert (∀ u, (length (filter (same_vote_key u k room_code) l) ≤ 1)%nat)
    as Hl.
  { intros u. specialize (Hu u). rewrite filter_cons in Hu.
    case_decide; cbn in Hu; lia. }
  rewrite filter_cons. case_decide as Ha; [|by apply IH].
  rewrite fmap_cons. apply NoDup_cons. split; [|by apply IH].
  intros Hin. apply list_elem_of_fmap in Hin as (v & Huv & Hv).
  apply list_elem_of_filter in Hv as [(Hr & Hk & _) Hv].
  destruct Ha as (Har & Hak & _).
  specialize (Hu (Vote.user_id a)).
  rewrite filter_cons_True in Hu by done.
  assert (v ∈ filter (same_vote_key (Vote.user_id a) k room_code) l) as Hvin
    by by apply list_elem_of_filter.
  destruct (filter (same_vote_key (Vote.user_id a) k room_code) l);
    [by apply elem_of_nil in Hvin|cbn in Hu; lia].
Qed.

Lemma approvers_length_rows d room_code k :
  votes_unique d →
  length (approvers d room_code k)
  = length (filter (λ v, Vote.room_code v = room_code ∧ Vote.movie_id v = k
                         ∧ Vote.vote v = 1) (votes d)).
Proof.
  intros Hu. unfold approvers.
  rewrite <- (length_fmap Vote.user_id (filter _ (votes d))).
  apply Permutation_length, NoDup_Permutation.
  - apply NoDup_remove_dups.
  - apply approval_rows_users_NoDup. intros u. apply Hu.
  - intros x. apply elem_of_remove_dups.
Qed.

Lemma elem_of_left_join_fst ms vs m :
  m ∈ fst <$> left_join_votes ms vs ↔ m ∈ ms.
Proof.
  induction ms as [|a ms IH]; [done|].
  rewrite left_join_votes_cons, fmap_app, elem_of_app, IH, elem_of_cons.
  assert (m ∈ fst <$> joined_rows a vs ↔ m = a) as ->; [|done].
  pose proof (joined_rows_fst a vs) as Hall.
  pose proof (joined_rows_not_nil a vs) as Hne.
  rewrite list_elem_of_fmap. split.
  - intros (row & -> & Hrow). rewrite Forall_forall in Hall. by apply Hall.
  - intros ->. destruct (joined_rows a vs) as [|row l]; [done|].
    exists row. split; [|by left]. symmetry. by apply Forall_cons in Hall as [? _].
Qed.

Lemma group_count_approvers d room_code m :
  votes_unique d →
  let rms := filter (λ m', Movie.room_code m' = room_code) (movies d) in
  NoDup (Movie.movie_id <$> rms) → m ∈ rms →
  count_v_id (filter (λ row, Movie.movie_id (row.1) = Movie.movie_id m)
                     (left_join_votes rms (votes d)))
  = length (approvers d room_code (Movie.movie_id m)).
Proof.
  intros Hu rms Hnd Hm.
  pose proof (left_join_votes_filter
                (λ m', Movie.movie_id m' = Movie.movie_id m) rms (votes d))
    as Hgroup.
  cbv beta in Hgroup. rewrite Hgroup.
  rewrite (filter_same_key_singleton Movie.movie_id rms m) by done.
  rewrite left_join_votes_cons. cbn [left_join_votes mbind list_bind].
  rewrite app_nil_r, count_v_id_joined_rows, approvers_length_rows by done.
  f_equal. apply list_filter_iff. intros v.
  apply list_elem_of_filter in Hm as [Hr _]. rewrite Hr.
  split; intros (? & ? & ?); done.
Qed.

(** X8.  In a state the server can be in, for a room with at least one
    participant and no movie id listed twice, the matched count of
    [count_matched_movies], which [get_vote_progress] reports, is the number
    of movies [get_matched_movies] returns. *)
Theorem count_matched_agrees (d : Database) (room_code : string) :
  reachable d →
  NoDup (Movie.movie_id <$>
         filter (λ m, Movie.room_code m = room_code) (movies d)) →
  (1 ≤ participant_count d room_code)%nat →
  count_matched_movies d room_code = length (get_matched_movies d room_code)
  ∧ Progress.movies_with_all_votes (get_vote_progress d room_code)
    = length (get_matched_movies d room_code).
Proof.
  intros Hd Hnd Hpc.
  destruct (reachable_votes_wf d Hd) as [Hu _].
  assert (count_matched_movies d room_code
          = length (get_matched_movies d room_code)) as Heq; [|done].
  unfold count_matched_movies, get_matched_movies.
  rewrite length_fmap, matched_rows_filter.
  pose proof (left_join_votes_filter
                (λ m, Movie.room_code m = room_code) (movies d) (votes d))
    as Hjoined.
  cbv beta in Hjoined. rewrite Hjoined. clear Hjoined.
  set (rms := filter (λ m, Movie.room_code m = room_code) (movies d)) in *.
  set (J := left_join_votes rms (votes d)).
  assert (remove_dups ((λ row, Movie.movie_id (row.1)) <$> J)
          ≡ₚ Movie.movie_id <$> rms) as Hkeys.
  { apply NoDup_Permutation; [apply NoDup_remove_dups|done|].
    intros k. rewrite elem_of_remove_dups, !list_elem_of_fmap. split.
    - intros (row & -> & Hrow). exists (row.1). split; [done|].
      apply (elem_of_left_join_fst rms (votes d)). by apply list_elem_of_fmap_2.
    - intros (m & -> & Hm).
      apply (elem_of_left_join_fst rms (votes d)) in Hm.
      apply list_elem_of_fmap in Hm as (row & -> & Hrow). by exists row. }
  rewrite (filter_ext_elem _
             (λ k, length (approvers d room_code k)
                   = participant_count d room_code)).
  2:{ intros k Hk. rewrite Hkeys in Hk.
      apply list_elem_of_fmap in Hk as (m & -> & Hm).
      unfold J, rms. by rewrite (group_count_approvers d room_code m). }
  rewrite Hkeys, length_filter_fmap. f_equal.
  unfold rms. rewrite list_filter_filter. apply list_filter_iff.
  intros m. split; [by intros [? ?]|by intros (? & _ & ?)].
Qed.

Lemma count_matched_agrees_witness :
  count_matched_movies db_two "AB12CD" = length (get_matched_movies db_two "AB12CD")
  ∧ Progress.movies_with_all_votes (get_vote_progress db_two "AB12CD")
    = length (get_matched_movies db_two "AB12CD").
Proof.
  apply (count_matched_agrees db_two "AB12CD").
  - exact db_two_reachable.
  - apply (bool_decide_unpack _). by vm_compute.
  - apply (bool_decide_unpack _). by vm_compute.
Defined.

(** X9.  [get_matched_movies] returns only movies of the room, in the order
    and with the repetitions of [get_movies_for_room], so never more than
    the total the progress reports. *)
Theorem matched_sublist_of_movies (d : Database) (room_code : string) :
  get_matched_movies d room_code `sublist_of` get_movies_for_room d room_code
  ∧ (length (get_matched_movies d room_code)
     ≤ Progress.total_movies (get_vote_progress d room_code))%nat.
Proof.
  assert (get_matched_movies d room_code
          `sublist_of` get_movies_for_room d room_code) as Hsub.
  { unfold get_matched_movies, get_movies_for_room, matched_rows.
    apply fmap_sublist.
    rewrite <- (list_filter_filter_l _ (λ m, Movie.room_code m = room_code))
      by (by intros m [? _]).
    apply sublist_filter. }
  split; [done|]. apply sublist_length in Hsub.
  unfold get_movies_for_room in Hsub. rewrite length_fmap in Hsub. done.
Qed.

(** ** Voting twice *)





(** * Further properties of the session registry *)

Lemma connect_run (s : Server) (websocket : nat) (room_code : string) :
  connect websocket room_code s
  = (Ok tt,
     mkServer (db s)
       (<[room_code := default [] (active_connections s !! room_code)
                       ++ [websocket]]> (active_connections s))
       (stale s) (delivered s)).
Proof.
  unfold connect, set_connections.
  destruct (active_connections s !! room_code) as [conns|] eqn:Hac; cbn [default].
  - by rewrite (lookup_total_correct _ _ _ Hac).
  - by rewrite lookup_total_insert_eq, insert_insert_eq.
Qed.

Lemma list_remove_absent x l : x ∉ l → list_remove x l = None.
Proof.
  induction l as [|y l IH]; [done|].
  rewrite not_elem_of_cons. intros [Hne Hl]. cbn.
  rewrite decide_False by done. by rewrite IH.
Qed.

Lemma list_remove_first x l1 l2 :
  x ∉ l1 → list_remove x (l1 ++ x :: l2) = Some (l1 ++ l2).
Proof.
  induction l1 as [|y l1 IH]; cbn.
  - intros _. by rewrite decide_True.
  - rewrite not_elem_of_cons. intros [Hne Hl].
    rewrite decide_False by done. by rewrite IH.
Qed.

Lemma disconnect_removed (s : Server) (websocket : nat) (room_code : string)
    l1 l2 :
  active_connections s !! room_code = Some (l1 ++ websocket :: l2) →
  websocket ∉ l1 →
  disconnect websocket room_code s
  = (Ok tt,
     mkServer (db s)
       (if decide (l1 ++ l2 = [])
        then delete room_code (active_connections s)
        else <[room_code := l1 ++ l2]> (active_connections s))
       (stale s) (delivered s)).
Proof.
  intros Hac Hl1. unfold disconnect, set_connections.
  rewrite Hac, list_remove_first by done.
  destruct (l1 ++ l2) as [|c l]; [by rewrite decide_True|].
  by rewrite decide_False.
Qed.

(** X11.  [disconnect] by cases.  For a room that is not registered it does
    nothing.  For a registered room that does not list the socket,
    [list.remove] raises ValueError and nothing changes.  Otherwise the first
    occurrence of the socket is taken out of the room's list, the room's key
    is deleted when the list becomes empty, and the other rooms, the
    database and the deliveries are as before. *)
Theorem disconnect_cases (s : Server) (websocket : nat) (room_code : string) :
  (active_connections s !! room_code = None →
   disconnect websocket room_code s = (Ok tt, s))
  ∧ (∀ conns, active_connections s !! room_code = Some conns →
       websocket ∉ conns →
       disconnect websocket room_code s
       = (Raise (ValueError "list.remove(x): x not in list"), s))
  ∧ (∀ l1 l2, active_connections s !! room_code = Some (l1 ++ websocket :: l2) →
       websocket ∉ l1 →
       ∃ s', disconnect websocket room_code s = (Ok tt, s')
             ∧ active_connections s' !! room_code
               = (if decide (l1 ++ l2 = []) then None else Some (l1 ++ l2))
             ∧ (∀ rc, rc ≠ room_code →
                  active_connections s' !! rc = active_connections s !! rc)
             ∧ db s' = db s ∧ stale s' = stale s
             ∧ delivered s' = delivered s).
Proof.
  split_and!.
  - intros Hac. unfold disconnect. by rewrite Hac.
  - intros conns Hac Hws. unfold disconnect.
    by rewrite Hac, list_remove_absent.
  - intros l1 l2 Hac Hl1. eexists. split; [by apply disconnect_removed|].
    cbn [active_connections db stale delivered]. split_and!; try done.
    + case_decide; [apply lookup_delete_eq|apply lookup_insert_eq].
    + intros rc Hne.
      case_decide; [by apply lookup_delete_ne|by apply lookup_insert_ne].
Qed.

(** X12.  [connect] and then [disconnect] of a socket that the room did not
    list leave the server as it was, given that the room was not registered
    with an empty list. *)
Theorem connect_disconnect_round_trip (s : Server) (websocket : nat)
    (room_code : string) :
  websocket ∉ default [] (active_connections s !! room_code) →
  active_connections s !! room_code ≠ Some [] →
  bind (connect websocket room_code) (λ _, disconnect websocket room_code) s
  = (Ok tt, s).
Proof.
  intros Hws Hne. unfold bind. rewrite connect_run.
  rewrite (disconnect_removed _ _ _
             (default [] (active_connections s !! room_code)) []);
    [|cbn [active_connections]; apply lookup_insert_eq|done].
  cbn [db active_connections stale delivered]. rewrite app_nil_r.
  destruct s as [d ac st del]. cbn [active_connections] in *.
  f_equal. f_equal.
  destruct (ac !! room_code) as [conns|] eqn:Hac;
    unfold default in *; cbn [from_option id] in *.
  - rewrite decide_False by (by intros ->).
    rewrite insert_insert_eq. by apply insert_id.
  - rewrite decide_True by done. by apply delete_insert_id.
Qed.

Lemma connect_disconnect_round_trip_witness :
  bind (connect 4%nat "AB12CD") (λ _, disconnect 4%nat "AB12CD") srv_demo
  = (Ok tt, srv_demo).
Proof.
  apply (connect_disconnect_round_trip srv_demo 4%nat "AB12CD").
  - apply (bool_decide_unpack _). by vm_compute.
  - by vm_compute.
Defined.

(** X13.  The registry never gets a room with an empty list: if it has none,
    it has none after [connect], after [disconnect], whether it raises or
    not, and after [broadcast_to_room]. *)
Theorem no_empty_rooms_kept (s : Server) (websocket : nat)
    (room_code : string) (msg : message) :
  no_empty_rooms (active_connections s) →
  no_empty_rooms (active_connections (connect websocket room_code s).2)
  ∧ no_empty_rooms (active_connections (disconnect websocket room_code s).2)
  ∧ no_empty_rooms (active_connections (broadcast_to_room room_code msg s).2).
Proof.
  intros Hs. split_and!.
  - rewrite connect_run. cbn. intros rc.
    destruct (decide (rc = room_code)) as [->|Hne].
    + rewrite lookup_insert_eq. intros [= Heq]. by apply app_nil in Heq as [_ ?].
    + rewrite lookup_insert_ne by done. apply Hs.
  - destruct (active_connections s !! room_code) as [conns|] eqn:Hac.
    2:{ unfold disconnect. by rewrite Hac. }
    destruct (decide (websocket ∈ conns)) as [Hin|Hnin].
    2:{ unfold disconnect. by rewrite Hac, list_remove_absent. }
    apply list_elem_of_split_l in Hin as (l1 & l2 & -> & Hl1).
    rewrite (disconnect_removed s websocket room_code l1 l2) by done.
    cbn. intros rc. destruct (decide (rc = room_code)) as [->|Hne].
    + case_decide as Hnil; [by rewrite lookup_delete_eq|].
      rewrite lookup_insert_eq. by intros [= ?].
    + case_decide; rewrite ?lookup_delete_ne, ?lookup_insert_ne by done;
        apply Hs.
  - by rewrite broadcast_to_room_run.
Qed.

Lemma no_empty_rooms_kept_witness :
  no_empty_rooms (active_connections (connect 1%nat "AB12CD" srv_demo).2)
  ∧ no_empty_rooms (active_connections (disconnect 1%nat "AB12CD" srv_demo).2)
  ∧ no_empty_rooms
      (active_connections (broadcast_to_room "AB12CD" (Echo "hello") srv_demo).2).
Proof.
  apply (no_empty_rooms_kept srv_demo).
  intros rc. unfold srv_demo. cbn [active_connections].
  destruct (decide (rc = "AB12CD")) as [->|Hne].
  - by rewrite lookup_singleton_eq.
  - by rewrite lookup_singleton_ne.
Defined.

(** X14.  After [connect], a broadcast to the room reaches the new socket,
    if it is not stale, after the sockets that were registered before it. *)
Theorem connect_then_broadcast (s : Server) (websocket : nat)
    (room_code : string) (msg : message) :
  websocket ∉ stale s →
  let conns := default [] (active_connections s !! room_code) in
  ∃ s', bind (connect websocket room_code)
             (λ _, broadcast_to_room room_code msg) s = (Ok tt, s')
        ∧ delivered s'
          = delivered s
            ++ ((λ ws, (ws, msg)) <$> filter (λ ws, ws ∉ stale s) conns)
            ++ [(websocket, msg)]
        ∧ active_connections s' !! room_code = Some (conns ++ [websocket]).
Proof.
  intros Hws conns. eexists. split.
  - unfold bind. rewrite connect_run. apply broadcast_to_room_run.
  - unfold after_broadcast. cbn [db active_connections stale delivered].
    rewrite lookup_insert_eq. split; [|done].
    change (default [] (Some (?l ++ [websocket]))) with (l ++ [websocket]).
    f_equal. rewrite filter_app, fmap_app. f_equal.
    by rewrite filter_cons_True.
Qed.

Lemma connect_then_broadcast_witness :
  ∃ s', bind (connect 4%nat "AB12CD")
             (λ _, broadcast_to_room "AB12CD" (Echo "hello")) srv_demo
        = (Ok tt, s')
        ∧ delivered s'
          = [(1%nat, Echo "hello"); (3%nat, Echo "hello"); (4%nat, Echo "hello")]
        ∧ active_connections s' !! "AB12CD" = Some [1; 2; 3; 4]%nat.
Proof.
  apply (connect_then_broadcast srv_demo 4%nat "AB12CD" (Echo "hello")).
  apply (bool_decide_unpack _). by vm_compute.
Defined.

(** * Further properties of the endpoints *)





Lemma for_each_echo (websocket : nat) (texts : list string) : ∀ s,
  websocket ∉ stale s →
  for_each texts
    (λ data, send_json websocket
               (Echo (String.append "Server received: " data))) s
  = (Ok tt,
     mkServer (db s) (active_connections s) (stale s)
       (delivered s ++
        ((λ data, (websocket, Echo (String.append "Server received: " data)))
         <$> texts))).
Proof.
  induction texts as [|data texts IH]; intros s Hws.
  - destruct s; cbn. unfold ret. by rewrite app_nil_r.
  - cbn [for_each]. unfold bind, send_json at 1.
    rewrite decide_False by done. rewrite IH by done.
    cbn [db active_connections stale delivered].
    by rewrite fmap_cons, <- app_assoc.
Qed.

Lemma registry_restored (ac : gmap string (list nat)) (room_code : string)
    (websocket : nat) :
  ac !! room_code ≠ Some [] →
  let conns := default [] (ac !! room_code) in
  (if decide (conns ++ [] = [])
   then delete room_code (<[room_code := conns ++ [websocket]]> ac)
   else <[room_code := conns ++ []]> (<[room_code := conns ++ [websocket]]> ac))
  = ac.
Proof.
  intros Hne conns. unfold conns. clear conns. rewrite app_nil_r.
  destruct (ac !! room_code) as [conns|] eqn:Hac;
    unfold default; cbn [from_option id].
  - rewrite decide_False by (by intros ->).
    rewrite insert_insert_eq. by apply insert_id.
  - rewrite decide_True by done. by apply delete_insert_id.
Qed.

(** X16.  A websocket session of a socket that is not stale and was not
    registered for the room, in a registry without empty lists.  It ends
    normally; the socket got the connected message with the participants and
    the progress of the moment it connected, and one echo for each text; the
    user's participant row and votes in the room are deleted; every other
    socket of the room that is not stale got one user_left with the
    participant list after the removal, the socket itself got none; and the
    registry is what it was. *)
Theorem websocket_session (s : Server) (websocket : nat)
    (room_code user_id : string) (received : list string) :
  websocket ∉ stale s →
  websocket ∉ default [] (active_connections s !! room_code) →
  active_connections s !! room_code ≠ Some [] →
  let d' := remove_participant (db s) user_id room_code in
  websocket_endpoint websocket room_code user_id received s
  = (Ok tt,
     mkServer d' (active_connections s) (stale s)
       (delivered s
        ++ [(websocket,
             Connected (String.append "Connected to room " room_code)
               (get_participants (db s) room_code)
               (get_vote_progress (db s) room_code))]
        ++ ((λ data, (websocket, Echo (String.append "Server received: " data)))
            <$> received)
        ++ ((λ ws, (ws, UserLeft user_id (get_participants d' room_code)))
            <$> filter (λ ws, ws ∉ stale s)
                       (default [] (active_connections s !! room_code))))).
Proof.
  intros Hstale Hnew Hne d'.
  unfold websocket_endpoint, bind at 1. rewrite connect_run.
  unfold bind at 1, bind at 1, get_db at 1.
  cbn [db active_connections stale delivered].
  unfold bind at 1, send_json at 1.
  cbn [db active_connections stale delivered].
  rewrite decide_False by done.
  rewrite for_each_echo by done.
  cbn [db active_connections stale delivered].
  unfold bind at 1.
  rewrite (disconnect_removed _ websocket room_code
             (default [] (active_connections s !! room_code)) []);
    [|cbn [active_connections]; apply lookup_insert_eq|done].
  cbn [db active_connections stale delivered].
  rewrite registry_restored by done.
  unfold bind, get_db, set_db. cbn [db active_connections stale delivered].
  rewrite broadcast_to_room_run. unfold after_broadcast.
  cbn [db active_connections stale delivered].
  fold d'. by rewrite <- !app_assoc.
Qed.

Lemma websocket_session_witness :
  websocket_endpoint 4%nat "AB12CD" p2 ["hi"]
    (mkServer db_two {["AB12CD" := [1; 2; 3]%nat]} {[2%nat]} [])
  = (Ok tt,
     mkServer (remove_participant db_two p2 "AB12CD")
       {["AB12CD" := [1; 2; 3]%nat]} {[2%nat]}
       [(4%nat, Connected "Connected to room AB12CD"
                  [(p1, "Ann"); (p2, "Bob")] (Progress.mk 2 1 2));
        (4%nat, Echo "Server received: hi");
        (1%nat, UserLeft p2 [(p1, "Ann")]);
        (3%nat, UserLeft p2 [(p1, "Ann")])]).
Proof.
  rewrite (websocket_session
             (mkServer db_two {["AB12CD" := [1; 2; 3]%nat]} {[2%nat]} [])
             4%nat "AB12CD" p2 ["hi"]).
  - by vm_compute.
  - apply (bool_decide_unpack _). by vm_compute.
  - apply (bool_decide_unpack _). by vm_compute.
  - by vm_compute.
Defined.


(** X18.  POST /api/rooms/join for a room that exists, when the drawn id is
    free: the answer carries the new user id, and every socket of the room
    that is not stale is sent one user_joined with the username and the
    participant list of the room, the new participant last; the registry is
    not touched. *)
Theorem join_room_endpoint_broadcast (s : Server) (request : JoinRoomRequest.t)
    (r : rng) (pos : nat) (now : string) :
  let room_code := JoinRoomRequest.room_code request in
  let username := JoinRoomRequest.username request in
  let user_id := join (choices (ascii_lowercase ++ digits) 16 r pos) in
  room_exists (db s) room_code = true →
  user_id_taken (db s) user_id = false →
  ∃ s',
    join_room_endpoint request r pos now s
    = (Ok (JoinRoomResponse.mk user_id room_code username "Joined successfully"),
       s')
    ∧ get_participants (db s') room_code
      = get_participants (db s) room_code ++ [(user_id, username)]
    ∧ delivered s'
      = delivered s
        ++ ((λ ws, (ws, UserJoined username
                          (get_participants (db s) room_code
                           ++ [(user_id, username)])))
            <$> filter (λ ws, ws ∉ stale s)
                       (default [] (active_connections s !! room_code)))
    ∧ active_connections s' = active_connections s
    ∧ stale s' = stale s.
Proof.
  intros room_code username user_id Hroom Htaken. eexists.
  split; [by apply join_room_endpoint_joined|].
  cbn [after_broadcast db active_connections stale delivered].
  assert (get_participants
            (mkDatabase (rooms (db s))
               (participants (db s)
                ++ [Participant.mk user_id username room_code now])
               (movies (db s)) (votes (db s)) (movies_seq (db s))
               (votes_seq (db s))) room_code
          = get_participants (db s) room_code ++ [(user_id, username)]) as Hlist.
  { unfold get_participants. cbn [participants].
    rewrite filter_app, fmap_app. f_equal. by rewrite filter_cons_True. }
  fold room_code username user_id. by rewrite Hlist.
Qed.

Lemma join_room_endpoint_broadcast_witness :
  ∃ s',
    join_room_endpoint (JoinRoomRequest.mk "AB12CD" "Ann") rng_demo 6 "t1"
      srv_demo
    = (Ok (JoinRoomResponse.mk p1 "AB12CD" "Ann" "Joined successfully"), s')
    ∧ get_participants (db s') "AB12CD" = [(p1, "Ann")]
    ∧ delivered s'
      = [(1%nat, UserJoined "Ann" [(p1, "Ann")]);
         (3%nat, UserJoined "Ann" [(p1, "Ann")])]
    ∧ active_connections s' = active_connections srv_demo
    ∧ stale s' = stale srv_demo.
Proof.
  apply (join_room_endpoint_broadcast srv_demo (JoinRoomRequest.mk "AB12CD" "Ann")
           rng_demo 6 "t1").
  - by vm_compute.
  - by vm_compute.
Defined.

(** X19.  POST /api/rooms/join for a room code that is not in the rooms
    table answers 404 Room not found: [join_room] returns None, no row is
    written, no socket is sent anything and the registry is not touched. *)
Theorem join_room_endpoint_unknown_room (s : Server)
    (request : JoinRoomRequest.t) (r : rng) (pos : nat) (now : string) :
  room_exists (db s) (JoinRoomRequest.room_code request) = false →
  join_room (db s) (JoinRoomRequest.room_code request)
            (JoinRoomRequest.username request) r pos now
  = (Ok None, db s)
  ∧ join_room_endpoint request r pos now s
    = (Raise (HTTPException 404 "Room not found"), s).
Proof. apply join_room_endpoint_not_found. Qed.

Lemma join_room_endpoint_unknown_room_witness :
  join_room (db srv_demo) "ZZZZZZ" "Ann" rng_demo 6 "t1" = (Ok None, db srv_demo)
  ∧ join_room_endpoint (JoinRoomRequest.mk "ZZZZZZ" "Ann") rng_demo 6 "t1"
      srv_demo
    = (Raise (HTTPException 404 "Room not found"), srv_demo).
Proof.
  apply (join_room_endpoint_unknown_room srv_demo
           (JoinRoomRequest.mk "ZZZZZZ" "Ann") rng_demo 6 "t1").
  by vm_compute.
Defined.

(** * The votes table in every state *)


